(** * add_category.py: deriving the [category] field of therapy-advice records

    A shallow embedding of [src/add_category.py].  The script loads a JSON
    document, walks over its items, stores a [category] computed from the
    first element of each item's [contexts], and writes the document back to
    the path it was read from.

    Python values produced by [json.load] are embedded as the type [json];
    Python exceptions are embedded as the [Raise] branch of [result]. *)

From Stdlib Require Import Floats.SpecFloat.
From stdpp Require Import gmap strings list fin_maps.

Local Open Scope string_scope.

(** ** Python values after [json.load]

    [json.load] builds [None], [bool], [int], [float], [str], [list] and
    [dict] objects; the keys of every [dict] are [str].  A [dict] is used by
    the script as a map (membership, lookup, item assignment), and Python
    compares dicts without regard to key order, so it is a [gmap].  The
    elements of a [string] stand for the elements of the Python [str]. *)

#[warnings="-register-all"]
Inductive json : Type :=
  | JNull
  | JBool (b : bool)
  | JInt (z : Z)
  | JFloat (f : spec_float)
  | JStr (s : string)
  | JArr (l : list json)
  | JObj (m : gmap string json).

(** ** Exceptions *)

Inductive py_error : Type :=
  | FileNotFoundError
  | JSONDecodeError
  | TypeError
  | KeyError
  | IndexError.

Inductive result (A : Type) : Type :=
  | Ok (a : A)
  | Raise (e : py_error).

Arguments Ok {A} a.
Arguments Raise {A} e.

#[global] Instance result_ret : MRet result := λ A a, Ok a.

#[global] Instance result_bind : MBind result := λ A B k r,
  match r with
  | Ok a => k a
  | Raise e => Raise e
  end.

(** ** The lookup table (lines 6-16) *)

Definition context_mapping : gmap string string :=
  list_to_map
    [ ("conflict", "conflict_resolution");
      ("repair", "repair");
      ("boundary", "boundary");
      ("planning", "practical");
      ("co_parenting", "relationship");
      ("work/school", "communication");
      ("safety", "emotional");
      ("misunderstanding", "clarity");
      ("general", "general") ].

Arguments context_mapping : simpl never.

(** ** The Python operations the loop body uses *)

(** [key in item], for a [str] key: key membership on a dict, element
    membership on a list (a [str] is equal to [str] elements only),
    substring test on a [str]; the other values are not iterable. *)
Definition py_contains (key : string) (item : json) : result bool :=
  match item with
  | JObj m => Ok (bool_decide (is_Some (m !! key)))
  | JArr l =>
      Ok (existsb (λ x, match x with
                        | JStr s => bool_decide (s = key)
                        | _ => false
                        end) l)
  | JStr s =>
      Ok (match String.index 0 key s with
          | Some _ => true
          | None => false
          end)
  | _ => Raise TypeError
  end.

(** [item[key]], for a [str] key: lists and strings take integer indices
    only, and the scalars are not subscriptable. *)
Definition py_getitem (item : json) (key : string) : result json :=
  match item with
  | JObj m =>
      match m !! key with
      | Some v => Ok v
      | None => Raise KeyError
      end
  | _ => Raise TypeError
  end.

(** [len(v)] *)
Definition py_len (v : json) : result nat :=
  match v with
  | JArr l => Ok (length l)
  | JStr s => Ok (String.length s)
  | JObj m => Ok (size m)
  | _ => Raise TypeError
  end.

(** [v[0]]: the first element of a list, the first character of a [str] (as
    a [str] of length one); on a dict the key [0] is looked up, and no dict
    built by [json.load] has it. *)
Definition py_getitem0 (v : json) : result json :=
  match v with
  | JArr (x :: _) => Ok x
  | JArr [] => Raise IndexError
  | JStr (String c _) => Ok (JStr (String c ""))
  | JStr "" => Raise IndexError
  | JObj _ => Raise KeyError
  | _ => Raise TypeError
  end.

(** [item[key] = v], for a [str] key: only a dict accepts it. *)
Definition py_setitem (item : json) (key : string) (v : json) : result json :=
  match item with
  | JObj m => Ok (JObj (<[key := v]> m))
  | _ => Raise TypeError
  end.

(** [context_mapping.get(key, dflt)]: the key is hashed first, and lists and
    dicts are unhashable; a key that is not a [str] is equal to none of the
    table's keys. *)
Definition mapping_get (key : json) (dflt : string) : result string :=
  match key with
  | JStr s => Ok (default dflt (context_mapping !! s))
  | JArr _ | JObj _ => Raise TypeError
  | _ => Ok dflt
  end.

(** ** The loop (lines 24-32) *)

(** The test of line 25; [and] evaluates its right operand only when the
    left one is true. *)
Definition has_contexts (item : json) : result bool :=
  present ← py_contains "contexts" item;
  if (present : bool) then
    contexts ← py_getitem item "contexts";
    n ← py_len contexts;
    mret (0 <? n)%nat
  else mret false.

(** The loop body, lines 25-32. *)
Definition process_item (item : json) : result json :=
  nonempty ← has_contexts item;
  if (nonempty : bool) then
    contexts ← py_getitem item "contexts";
    primary_context ← py_getitem0 contexts;
    category ← mapping_get primary_context "emotional";
    py_setitem item "category" (JStr category)
  else
    py_setitem item "category" (JStr "general").

(** The loop over a list of items: the first exception ends it. *)
Fixpoint process_items (items : list json) : result (list json) :=
  match items with
  | [] => Ok []
  | item :: rest =>
      item' ← process_item item;
      rest' ← process_items rest;
      mret (item' :: rest')
  end.

(** [for item in data: ...] on the loaded value.  A list yields its
    elements, which the body updates in place ([json.load] builds a tree, so
    no two positions hold the same object); a dict yields its keys and a
    [str] its characters, both immutable; the other values are not
    iterable. *)
Definition process_data (data : json) : result json :=
  match data with
  | JArr items => items' ← process_items items; mret (JArr items')
  | JObj m => _ ← process_items (JStr <$> (map_to_list m).*1); mret data
  | JStr s =>
      _ ← process_items
            ((λ c, JStr (String c "")) <$> String.list_ascii_of_string s);
      mret data
  | _ => Raise TypeError
  end.

(** ** The script (lines 18-38) *)

Record world : Type := World {
  files : gmap string string;
  stdout : list string
}.

Definition data_path : string := "data/therapy_advice.json".

Definition success_message : string :=
  "✅ Added category field to all entries".

(** [open(path, 'r')] followed by reading the whole file. *)
Definition read_file (path : string) (w : world) : result string :=
  match files w !! path with
  | Some text => Ok text
  | None => Raise FileNotFoundError
  end.

(** [open(path, 'w')] followed by writing [text]: the file is replaced. *)
Definition write_file (path text : string) (w : world) : world :=
  World (<[path := text]> (files w)) (stdout w).

Definition py_print (line : string) (w : world) : world :=
  World (files w) (stdout w ++ [line]).

Section Script.

(** The [json] module is taken as given: [json_loads] is the parser
    ([None] when the text is not valid JSON) and [json_dumps] the
    serialiser called with [indent=2, ensure_ascii=False]. *)
Variable json_loads : string → option json.
Variable json_dumps : json → string.

Definition load_data (w : world) : result json :=
  text ← read_file data_path w;
  match json_loads text with
  | Some data => Ok data
  | None => Raise JSONDecodeError
  end.

Definition add_category_field (w : world) : result unit * world :=
  match load_data w with
  | Raise e => (Raise e, w)
  | Ok data =>
      match process_data data with
      | Raise e => (Raise e, w)
      | Ok data' =>
          (Ok (), py_print success_message
                    (write_file data_path (json_dumps data') w))
      end
  end.

End Script.

(** ** Vocabulary of the statements *)

(** The labels on the right-hand side of [context_mapping]. *)
Definition category_labels : list string :=
  [ "conflict_resolution"; "repair"; "boundary"; "practical"; "relationship";
    "communication"; "emotional"; "clarity"; "general" ].



(** Two items that differ at most in the presence or the value of the
    [category] key of a record. *)
Definition same_but_category (a b : json) : Prop :=
  a = b ∨
  ∃ ma mb, a = JObj ma ∧ b = JObj mb ∧
           delete "category" ma = delete "category" mb.

(** A value that [dict.get] accepts as a key. *)
Definition hashable (v : json) : Prop :=
  match v with
  | JArr _ | JObj _ => False
  | _ => True
  end.

(** The category the loop body stores in a dict, as a function of what the
    dict holds under [contexts] (lines 25-32 without the assignment). *)
Definition category_of (contexts : option json) : result string :=
  match contexts with
  | None => Ok "general"
  | Some v =>
      n ← py_len v;
      if (0 <? n)%nat then
        primary_context ← py_getitem0 v;
        mapping_get primary_context "emotional"
      else Ok "general"
  end.

(** The record [item] carries the category [c]. *)
Definition has_category (item : json) (c : string) : Prop :=
  ∃ m, item = JObj m ∧ m !! "category" = Some (JStr c).

(** ** Sample records and a sample document *)

Definition conflict_record : gmap string json :=
  {[ "contexts" := JArr [JStr "conflict"]; "id" := JInt 1 ]}.

Definition boundary_record : gmap string json :=
  {[ "contexts" := JArr [JStr "boundary"]; "category" := JStr "old_value" ]}.

Definition boundary_record_fresh : gmap string json :=
  {[ "contexts" := JArr [JStr "boundary"] ]}.

Definition unknown_record : gmap string json :=
  {[ "contexts" := JArr [JStr "unknown_label"; JStr "repair"] ]}.

Definition empty_record : gmap string json :=
  {[ "contexts" := JArr []; "advice" := JStr "breathe" ]}.

Definition bare_record : gmap string json :=
  {[ "advice" := JStr "listen" ]}.

Definition sample_items : list json :=
  [ JObj conflict_record; JObj boundary_record; JObj unknown_record;
    JObj empty_record; JObj bare_record ].

Definition sample_output : list json :=
  [ JObj (<["category" := JStr "conflict_resolution"]> conflict_record);
    JObj (<["category" := JStr "boundary"]> boundary_record);
    JObj (<["category" := JStr "emotional"]> unknown_record);
    JObj (<["category" := JStr "general"]> empty_record);
    JObj (<["category" := JStr "general"]> bare_record) ].

(** A stand-in for the [json] module on two texts, and two worlds in which
    loading fails. *)
Definition sample_loads (text : string) : option json :=
  if decide (text = "[]") then Some (JArr [])
  else if decide (text = "7") then Some (JInt 7)
  else None.

Definition sample_dumps (data : json) : string :=
  match data with
  | JArr [] => "[]"
  | _ => "?"
  end.

Definition world_without_file : world := World ∅ [].

Definition world_with_malformed_file : world :=
  World {[ data_path := "{oops" ]} [].

(** A value that is neither a [str] nor a container: [None], a boolean or
    a number. *)
Definition scalar (v : json) : Prop :=
  match v with
  | JNull | JBool _ | JInt _ | JFloat _ => True
  | _ => False
  end.

(** The item is processed without an exception. *)
Definition succeeds (item : json) : Prop := ∃ o, process_item item = Ok o.

(** Worlds for the runs of the script: the data file holds an empty list,
    next to a file the script does not know; the data file holds a number. *)
Definition world_with_empty_list : world :=
  World {[ data_path := "[]"; "notes.txt" := "keep" ]} ["earlier line"].

Definition world_after_run : world :=
  World {[ data_path := "[]"; "notes.txt" := "keep" ]}
        ["earlier line"; success_message].


Definition null_contexts_record : gmap string json :=
  {[ "contexts" := JNull; "advice" := JStr "wait" ]}.

Definition dict_contexts_record : gmap string json :=
  {[ "contexts" := JObj {[ "conflict" := JBool true ]} ]}.

Definition nested_contexts_record : gmap string json :=
  {[ "contexts" := JArr [JArr [JStr "conflict"]; JStr "repair"] ]}.

Definition str_contexts_record : gmap string json :=
  {[ "contexts" := JStr "conflict" ]}.




(** ** The scenarios of the specification, run on the model *)

Example scenario_conflict :
  process_data (JArr [JObj {[ "contexts" := JArr [JStr "conflict"] ]}])
  = Ok (JArr [JObj {[ "contexts" := JArr [JStr "conflict"];
                      "category" := JStr "conflict_resolution" ]}]).
Proof. vm_compute. reflexivity. Qed.

Example scenario_unknown_label :
  process_item (JObj {[ "contexts" := JArr [JStr "unknown_label"] ]})
  = Ok (JObj {[ "contexts" := JArr [JStr "unknown_label"];
                "category" := JStr "emotional" ]}).
Proof. vm_compute. reflexivity. Qed.

Example scenario_empty_contexts :
  process_item (JObj {[ "contexts" := JArr [] ]})
  = Ok (JObj {[ "contexts" := JArr []; "category" := JStr "general" ]}).
Proof. vm_compute. reflexivity. Qed.

Example scenario_no_contexts :
  process_item (JObj ∅) = Ok (JObj {[ "category" := JStr "general" ]}).
Proof. vm_compute. reflexivity. Qed.

Example scenario_first_context_only :
  process_item (JObj {[ "contexts" := JArr [JStr "safety"; JStr "repair"] ]})
  = Ok (JObj {[ "contexts" := JArr [JStr "safety"; JStr "repair"];
                "category" := JStr "emotional" ]}).
Proof. vm_compute. reflexivity. Qed.

Example scenario_overwrite :
  process_item (JObj {[ "contexts" := JArr [JStr "boundary"];
                        "category" := JStr "old_value" ]})
  = Ok (JObj {[ "contexts" := JArr [JStr "boundary"];
                "category" := JStr "boundary" ]}).
Proof. vm_compute. reflexivity. Qed.

(** Values outside the data model end the run with an exception. *)
Example unhashable_primary_context :
  process_item (JObj {[ "contexts" := JArr [JArr [JStr "conflict"]] ]})
  = Raise TypeError.
Proof. vm_compute. reflexivity. Qed.

Example contexts_null :
  process_item (JObj {[ "contexts" := JNull ]}) = Raise TypeError.
Proof. vm_compute. reflexivity. Qed.

Example contexts_dict :
  process_item (JObj {[ "contexts" := JObj {[ "a" := JNull ]} ]})
  = Raise KeyError.
Proof. vm_compute. reflexivity. Qed.

Example contexts_str :
  process_item (JObj {[ "contexts" := JStr "general" ]})
  = Ok (JObj {[ "contexts" := JStr "general";
                "category" := JStr "emotional" ]}).
Proof. vm_compute. reflexivity. Qed.

Example top_level_number : process_data (JInt 3) = Raise TypeError.
Proof. reflexivity. Qed.

Example top_level_dict :
  process_data (JObj {[ "contexts" := JArr [] ]}) = Raise TypeError.
Proof. vm_compute. reflexivity. Qed.

(** ** The exception monad *)

Lemma bind_Ok {A B} (r : result A) (k : A → result B) b :
  r ≫= k = Ok b ↔ ∃ a, r = Ok a ∧ k a = Ok b.
Proof.
  destruct r as [a|e]; cbn; split.
  - eauto.
  - by intros (? & [= <-] & ?).
  - done.
  - by intros (? & ? & ?).
Qed.

Lemma bind_Raise {A B} (r : result A) (k : A → result B) e :
  r = Raise e → r ≫= k = Raise e.
Proof. by intros ->. Qed.

(** ** The loop body on one item *)

Lemma process_item_dict m :
  process_item (JObj m) =
  category ← category_of (m !! "contexts");
  Ok (JObj (<["category" := JStr category]> m)).
Proof.
  unfold process_item, has_contexts, category_of; cbn.
  destruct (m !! "contexts") as [v|] eqn:Hv; cbn; [|done].
  destruct (py_len v) as [[|n]|e]; cbn; [done| |done].
  destruct (py_getitem0 v) as [pc|e]; cbn; [|done].
  by destruct (mapping_get pc "emotional").
Qed.

Lemma process_item_not_dict item :
  (∀ m, item ≠ JObj m) → process_item item = Raise TypeError.
Proof.
  intros Hm. unfold process_item, has_contexts.
  destruct item as [| | | | s|l|m]; cbn; try done.
  - by destruct (String.index 0 "contexts" s).
  - by destruct (existsb _ l).
  - by destruct (Hm m).
Qed.

Lemma process_item_Ok item o :
  process_item item = Ok o ↔
  ∃ m c, item = JObj m ∧ category_of (m !! "contexts") = Ok c ∧
         o = JObj (<["category" := JStr c]> m).
Proof.
  split.
  - destruct item as [| | | | s|l|m];
      try (by rewrite process_item_not_dict).
    rewrite process_item_dict, bind_Ok. intros (c & Hc & [= <-]). eauto.
  - intros (m & c & -> & Hc & ->). by rewrite process_item_dict, Hc.
Qed.

(** ** The lookup table *)

Lemma context_mapping_range k c :
  context_mapping !! k = Some c → c ∈ category_labels.
Proof.
  intros Hk. apply (elem_of_list_to_map_2 (M := gmap string)) in Hk.
  unfold category_labels.
  repeat (apply elem_of_cons in Hk as [[= _ <-]|Hk]; [set_solver|]).
  by apply elem_of_nil in Hk.
Qed.

Lemma category_labels_range c :
  c ∈ category_labels → ∃ k, context_mapping !! k = Some c.
Proof.
  unfold category_labels. rewrite !elem_of_cons, elem_of_nil.
  intros [->|[->|[->|[->|[->|[->|[->|[->|[->|[]]]]]]]]]].
  - by exists "conflict".
  - by exists "repair".
  - by exists "boundary".
  - by exists "planning".
  - by exists "co_parenting".
  - by exists "work/school".
  - by exists "safety".
  - by exists "misunderstanding".
  - by exists "general".
Qed.

Lemma category_labels_nonempty c : c ∈ category_labels → c ≠ "".
Proof.
  unfold category_labels. rewrite !elem_of_cons, elem_of_nil.
  intros H. repeat (destruct H as [->|H]; [done|]). done.
Qed.

Lemma mapping_get_label key c :
  mapping_get key "emotional" = Ok c → c ∈ category_labels.
Proof.
  destruct key as [| | | | s| |]; cbn; intros [= <-];
    try (unfold category_labels; set_solver).
  destruct (context_mapping !! s) as [v|] eqn:Hs; cbn.
  - by eapply context_mapping_range.
  - unfold category_labels; set_solver.
Qed.

(** ** The computed category *)

Lemma py_getitem0_len v x : py_getitem0 v = Ok x → ∃ n, py_len v = Ok (S n).
Proof.
  destruct v as [| | | | [|c s]|[|y l]|m]; cbn; try done; eauto.
Qed.

Lemma category_of_empty v :
  py_len v = Ok 0%nat → category_of (Some v) = Ok "general".
Proof. cbn. by intros ->. Qed.

Lemma category_of_first v pc :
  py_getitem0 v = Ok pc →
  category_of (Some v) = mapping_get pc "emotional".
Proof.
  intros Hpc. destruct (py_getitem0_len _ _ Hpc) as [n Hn].
  cbn. by rewrite Hn, Hpc.
Qed.

Lemma category_of_mapped v k c :
  py_getitem0 v = Ok (JStr k) → context_mapping !! k = Some c →
  category_of (Some v) = Ok c.
Proof. intros Hpc Hk. rewrite (category_of_first _ _ Hpc). cbn. by rewrite Hk. Qed.

Lemma category_of_unmapped v pc :
  py_getitem0 v = Ok pc → hashable pc →
  (∀ k, pc = JStr k → context_mapping !! k = None) →
  category_of (Some v) = Ok "emotional".
Proof.
  intros Hpc Hh Hk. rewrite (category_of_first _ _ Hpc).
  destruct pc as [| | | | s| |]; cbn in *; try done.
  by rewrite (Hk s).
Qed.

Lemma category_of_label contexts c :
  category_of contexts = Ok c → c ∈ category_labels.
Proof.
  destruct contexts as [v|]; cbn.
  - intros (n & _ & Hc)%bind_Ok. destruct n as [|n].
    + injection Hc as <-. unfold category_labels; set_solver.
    + apply bind_Ok in Hc as (pc & _ & Hc). by eapply mapping_get_label.
  - intros [= <-]. unfold category_labels; set_solver.
Qed.

(** ** The loop *)

Lemma process_items_Ok items out :
  process_items items = Ok out ↔
  Forall2 (λ item o, process_item item = Ok o) items out.
Proof.
  revert out. induction items as [|item rest IH]; intros out; cbn.
  - split; [intros [= <-]; constructor | by inversion 1].
  - rewrite bind_Ok. split.
    + intros (o & Ho & (out' & Hout & [= <-])%bind_Ok).
      constructor; [done | by apply IH].
    + inversion 1 as [|? o ? out' Ho Hout]; subst.
      exists o. split; [done|]. apply bind_Ok. exists out'.
      split; [by apply IH | done].
Qed.

Lemma process_data_list items doc' :
  process_data (JArr items) = Ok doc' ↔
  ∃ out, doc' = JArr out ∧ process_items items = Ok out.
Proof.
  cbn. rewrite bind_Ok. split.
  - intros (out & Hout & [= <-]). eauto.
  - intros (out & -> & Hout). eauto.
Qed.

Lemma process_data_lookup items out i item :
  process_items items = Ok out → items !! i = Some item →
  ∃ o, out !! i = Some o ∧ process_item item = Ok o.
Proof.
  intros Hout%process_items_Ok Hi.
  destruct (Forall2_lookup_l _ _ _ _ _ Hout Hi) as (o & Ho & Hitem). eauto.
Qed.



Example sample_run : process_data (JArr sample_items) = Ok (JArr sample_output).
Proof. vm_compute. reflexivity. Qed.

(** When the loop body can store only [c] in the dict [m], the record at
    the position of [m] in an output document carries [c]. *)
Lemma record_category_in_output m c items doc' i :
  (∀ c', category_of (m !! "contexts") = Ok c' → c' = c) →
  process_data (JArr items) = Ok doc' →
  items !! i = Some (JObj m) →
  ∃ out o, doc' = JArr out ∧ out !! i = Some o ∧ has_category o c.
Proof.
  intros Hm (out & -> & Hout)%process_data_list Hi.
  destruct (process_data_lookup _ _ _ _ Hout Hi) as (o & Ho & Hitem).
  exists out, o. split_and!; [done..|].
  apply process_item_Ok in Hitem as (? & c' & [= <-] & Hc & ->).
  apply Hm in Hc as ->.
  exists (<["category" := JStr c]> m). by rewrite lookup_insert_eq.
Qed.

(** ** The category of a record *)

(** C1: a record whose [contexts] is present and non-empty (it has a first
    element) and whose first element is a key [k] of [context_mapping] is
    processed without an exception, its [category] becomes the value the
    table gives for [k], whatever the record held under [category] before;
    and in every run that produces an output document, the record at the same
    position of the output carries that category. *)
Theorem mapped_context_category m contexts k c :
  m !! "contexts" = Some contexts →
  py_getitem0 contexts = Ok (JStr k) →
  context_mapping !! k = Some c →
  process_item (JObj m) = Ok (JObj (<["category" := JStr c]> m)) ∧
  ∀ items doc' i,
    process_data (JArr items) = Ok doc' → items !! i = Some (JObj m) →
    ∃ out o, doc' = JArr out ∧ out !! i = Some o ∧ has_category o c.
Proof.
  intros Hm Hpc Hk.
  pose proof (category_of_mapped _ _ _ Hpc Hk) as Hc. split.
  - by rewrite process_item_dict, Hm, Hc.
  - intros items doc' i. apply record_category_in_output.
    rewrite Hm, Hc. by intros c' [= <-].
Qed.

Lemma mapped_context_category_witness :
  process_item (JObj boundary_record)
  = Ok (JObj (<["category" := JStr "boundary"]> boundary_record)) ∧
  ∃ out o, JArr sample_output = JArr out ∧ out !! 1%nat = Some o ∧
           has_category o "boundary".
Proof.
  destruct (mapped_context_category boundary_record
              (JArr [JStr "boundary"]) "boundary" "boundary") as [Hitem Hdoc].
  - vm_compute; reflexivity.
  - reflexivity.
  - vm_compute; reflexivity.
  - split; [exact Hitem|].
    apply (Hdoc sample_items (JArr sample_output) 1%nat);
      vm_compute; reflexivity.
Defined.

(** C2: for a record whose [contexts] is present and non-empty and whose
    first element is not a key of [context_mapping], the record at the same
    position of every output document carries ["emotional"]; and when the
    first element is a value that can be looked up (a [str], a number, a
    boolean or [None]), the record is processed without an exception. *)
Theorem unmapped_context_category m contexts primary_context :
  m !! "contexts" = Some contexts →
  py_getitem0 contexts = Ok primary_context →
  (∀ k, primary_context = JStr k → context_mapping !! k = None) →
  (hashable primary_context →
   process_item (JObj m) = Ok (JObj (<["category" := JStr "emotional"]> m))) ∧
  ∀ items doc' i,
    process_data (JArr items) = Ok doc' → items !! i = Some (JObj m) →
    ∃ out o, doc' = JArr out ∧ out !! i = Some o ∧ has_category o "emotional".
Proof.
  intros Hm Hpc Hk. split.
  - intros Hh.
    by rewrite process_item_dict, Hm, (category_of_unmapped _ _ Hpc Hh Hk).
  - intros items doc' i. apply record_category_in_output.
    rewrite Hm, (category_of_first _ _ Hpc). intros c' Hc.
    destruct primary_context as [| | | | s| |]; cbn in Hc; try congruence.
    rewrite (Hk s) in Hc by done. cbn in Hc. congruence.
Qed.

Lemma unmapped_context_category_witness :
  process_item (JObj unknown_record)
  = Ok (JObj (<["category" := JStr "emotional"]> unknown_record)) ∧
  ∃ out o, JArr sample_output = JArr out ∧ out !! 2%nat = Some o ∧
           has_category o "emotional".
Proof.
  destruct (unmapped_context_category unknown_record
              (JArr [JStr "unknown_label"; JStr "repair"])
              (JStr "unknown_label")) as [Hitem Hdoc].
  - vm_compute; reflexivity.
  - reflexivity.
  - intros k [= <-]. vm_compute; reflexivity.
  - split; [exact (Hitem I)|].
    apply (Hdoc sample_items (JArr sample_output) 2%nat);
      vm_compute; reflexivity.
Defined.

(** C3: a record without [contexts], or whose [contexts] is empty, is
    processed without an exception and its [category] becomes ["general"];
    in every run that produces an output document, the record at the same
    position of the output carries ["general"]. *)
Theorem no_context_category m :
  (m !! "contexts" = None ∨
   ∃ contexts, m !! "contexts" = Some contexts ∧ py_len contexts = Ok 0%nat) →
  process_item (JObj m) = Ok (JObj (<["category" := JStr "general"]> m)) ∧
  ∀ items doc' i,
    process_data (JArr items) = Ok doc' → items !! i = Some (JObj m) →
    ∃ out o, doc' = JArr out ∧ out !! i = Some o ∧ has_category o "general".
Proof.
  intros Hm.
  assert (category_of (m !! "contexts") = Ok "general") as Hc.
  { destruct Hm as [->|(v & -> & Hv)]; [done|]. by apply category_of_empty. }
  split.
  - by rewrite process_item_dict, Hc.
  - intros items doc' i. apply record_category_in_output.
    rewrite Hc. by intros c' [= <-].
Qed.

Lemma no_context_category_witness :
  (process_item (JObj bare_record)
   = Ok (JObj (<["category" := JStr "general"]> bare_record)) ∧
   ∃ out o, JArr sample_output = JArr out ∧ out !! 4%nat = Some o ∧
            has_category o "general") ∧
  (process_item (JObj empty_record)
   = Ok (JObj (<["category" := JStr "general"]> empty_record)) ∧
   ∃ out o, JArr sample_output = JArr out ∧ out !! 3%nat = Some o ∧
            has_category o "general").
Proof.
  split.
  - destruct (no_context_category bare_record) as [Hitem Hdoc].
    + left. vm_compute; reflexivity.
    + split; [exact Hitem|].
      apply (Hdoc sample_items (JArr sample_output) 4%nat);
        vm_compute; reflexivity.
  - destruct (no_context_category empty_record) as [Hitem Hdoc].
    + right. exists (JArr []). split; vm_compute; reflexivity.
    + split; [exact Hitem|].
      apply (Hdoc sample_items (JArr sample_output) 3%nat);
        vm_compute; reflexivity.
Defined.

(** ** What the loop leaves alone *)

Lemma process_item_frame item o :
  process_item item = Ok o →
  ∃ m m', item = JObj m ∧ o = JObj m' ∧
          delete "category" m' = delete "category" m.
Proof.
  intros (m & c & -> & _ & ->)%process_item_Ok.
  exists m, (<["category" := JStr c]> m). by rewrite delete_insert_eq.
Qed.

(** C4: in every run that produces an output document, every input record
    is a dict, the output holds a dict at the same position, and the two
    dicts agree on every key other than [category]: the same keys are
    present, with the same values. *)
Theorem other_fields_unchanged items doc' :
  process_data (JArr items) = Ok doc' →
  ∃ out, doc' = JArr out ∧
    ∀ i item, items !! i = Some item →
      ∃ m m', item = JObj m ∧ out !! i = Some (JObj m') ∧
              delete "category" m' = delete "category" m ∧
              ∀ k, k ≠ "category" → m' !! k = m !! k.
Proof.
  intros (out & -> & Hout)%process_data_list. exists out. split; [done|].
  intros i item Hi.
  destruct (process_data_lookup _ _ _ _ Hout Hi) as (o & Ho & Hitem).
  destruct (process_item_frame _ _ Hitem) as (m & m' & -> & -> & Hdel).
  exists m, m'. split_and!; [done..|].
  intros k Hk.
  by rewrite <-(lookup_delete_ne m' "category" k),
             <-(lookup_delete_ne m "category" k), Hdel.
Qed.

Lemma other_fields_unchanged_witness :
  ∃ out, JArr sample_output = JArr out ∧
    ∀ i item, sample_items !! i = Some item →
      ∃ m m', item = JObj m ∧ out !! i = Some (JObj m') ∧
              delete "category" m' = delete "category" m ∧
              ∀ k, k ≠ "category" → m' !! k = m !! k.
Proof.
  apply (other_fields_unchanged sample_items (JArr sample_output)).
  vm_compute; reflexivity.
Defined.

(** ** Count and order of the records *)

(** C5: in every run that produces an output document, the output is a list
    with as many records as the input, and the record at each position of
    the output is what the loop body makes of the input record at that
    position. *)
Theorem records_preserved items doc' :
  process_data (JArr items) = Ok doc' →
  ∃ out, doc' = JArr out ∧ length out = length items ∧
    ∀ i item, items !! i = Some item →
      ∃ o, out !! i = Some o ∧ process_item item = Ok o.
Proof.
  intros (out & -> & Hout)%process_data_list. exists out. split_and!.
  - done.
  - apply process_items_Ok in Hout. symmetry. by eapply Forall2_length.
  - intros i item Hi. by eapply process_data_lookup.
Qed.

Lemma records_preserved_witness :
  ∃ out, JArr sample_output = JArr out ∧ length out = length sample_items ∧
    ∀ i item, sample_items !! i = Some item →
      ∃ o, out !! i = Some o ∧ process_item item = Ok o.
Proof.
  apply (records_preserved sample_items (JArr sample_output)).
  vm_compute; reflexivity.
Defined.

(** ** Running the loop again *)

Lemma process_item_fixed item o :
  process_item item = Ok o → process_item o = Ok o.
Proof.
  intros (m & c & -> & Hc & ->)%process_item_Ok.
  rewrite process_item_dict, lookup_insert_ne, Hc by done. cbn.
  by rewrite insert_insert_eq.
Qed.

Lemma process_items_fixed items out :
  process_items items = Ok out → process_items out = Ok out.
Proof.
  rewrite !process_items_Ok.
  induction 1 as [|item o rest out' Ho _ IH]; constructor; [|done].
  by eapply process_item_fixed.
Qed.

Lemma process_data_fixed data data' :
  process_data data = Ok data' → process_data data' = Ok data'.
Proof.
  intros Hdata. destruct data as [| | | | s|items|m]; try done.
  - assert (data' = JStr s) as ->; [|done].
    cbn in Hdata. by apply bind_Ok in Hdata as (? & _ & [= <-]).
  - apply process_data_list in Hdata as (out & -> & Hout).
    apply process_data_list. exists out. split; [done|].
    by eapply process_items_fixed.
  - assert (data' = JObj m) as ->; [|done].
    cbn in Hdata. by apply bind_Ok in Hdata as (? & _ & [= <-]).
Qed.

(** C6: processing a document and then processing the result gives what
    processing once gives, an exception of the first pass included. *)
Theorem process_data_idempotent data :
  process_data data ≫= process_data = process_data data.
Proof.
  destruct (process_data data) as [data'|e] eqn:Hdata; cbn; [|done].
  by eapply process_data_fixed.
Qed.

(** ** The labels that reach the output *)

Lemma category_labels_length : length category_labels = 9%nat.
Proof. reflexivity. Qed.

Lemma category_labels_NoDup : NoDup category_labels.
Proof. apply (bool_decide_unpack _). vm_compute. exact I. Qed.

Lemma context_mapping_size : size context_mapping = 9%nat.
Proof. vm_compute. reflexivity. Qed.

Lemma category_labels_is_range c :
  c ∈ category_labels ↔ ∃ k, context_mapping !! k = Some c.
Proof.
  split; [apply category_labels_range|].
  intros [k Hk]. by eapply context_mapping_range.
Qed.

Lemma process_item_label item o :
  process_item item = Ok o → ∃ c, has_category o c ∧ c ∈ category_labels.
Proof.
  intros (m & c & -> & Hc & ->)%process_item_Ok. exists c. split.
  - eexists. split; [done|]. by rewrite lookup_insert_eq.
  - by eapply category_of_label.
Qed.

Lemma process_items_label items out :
  process_items items = Ok out →
  Forall (λ o, ∃ c, has_category o c ∧ c ∈ category_labels) out.
Proof.
  rewrite process_items_Ok.
  induction 1 as [|item o rest out' Ho _ IH]; constructor; [|done].
  by eapply process_item_label.
Qed.

(** C7: in every run that produces an output document, every record of the
    output is a dict whose [category] is a [str] other than the empty one. *)
Theorem output_category_nonempty items doc' :
  process_data (JArr items) = Ok doc' →
  ∃ out, doc' = JArr out ∧
         Forall (λ o, ∃ c, has_category o c ∧ c ≠ "") out.
Proof.
  intros (out & -> & Hout)%process_data_list. exists out. split; [done|].
  eapply Forall_impl; [by eapply process_items_label|].
  intros o (c & Ho & Hc). exists c. split; [done|].
  by apply category_labels_nonempty.
Qed.

Lemma output_category_nonempty_witness :
  ∃ out, JArr sample_output = JArr out ∧
         Forall (λ o, ∃ c, has_category o c ∧ c ≠ "") out.
Proof.
  apply (output_category_nonempty sample_items (JArr sample_output)).
  vm_compute; reflexivity.
Defined.

(** C9: in every run that produces an output document, the [category] of
    every record of the output is one of the nine labels of
    [category_labels], each of which is a value of [context_mapping]. *)
Theorem output_category_in_range items doc' :
  process_data (JArr items) = Ok doc' →
  ∃ out, doc' = JArr out ∧
         Forall (λ o, ∃ c, has_category o c ∧ c ∈ category_labels ∧
                           ∃ k, context_mapping !! k = Some c) out.
Proof.
  intros (out & -> & Hout)%process_data_list. exists out. split; [done|].
  eapply Forall_impl; [by eapply process_items_label|].
  intros o (c & Ho & Hc). exists c. split_and!; [done..|].
  by apply category_labels_range.
Qed.

Lemma output_category_in_range_witness :
  ∃ out, JArr sample_output = JArr out ∧
         Forall (λ o, ∃ c, has_category o c ∧ c ∈ category_labels ∧
                           ∃ k, context_mapping !! k = Some c) out.
Proof.
  apply (output_category_in_range sample_items (JArr sample_output)).
  vm_compute; reflexivity.
Defined.

(** ** The category a record had before *)

Lemma process_item_same a b :
  same_but_category a b → process_item a = process_item b.
Proof.
  intros [->|(ma & mb & -> & -> & Hdel)]; [done|].
  rewrite !process_item_dict.
  assert (ma !! "contexts" = mb !! "contexts") as ->.
  { by rewrite <-(lookup_delete_ne ma "category" "contexts"),
               <-(lookup_delete_ne mb "category" "contexts"), Hdel. }
  destruct (category_of (mb !! "contexts")) as [c|e]; cbn; [|done].
  by rewrite <-(insert_delete_eq ma), <-(insert_delete_eq mb), Hdel.
Qed.

Lemma process_items_same items1 items2 :
  Forall2 same_but_category items1 items2 →
  process_items items1 = process_items items2.
Proof.
  induction 1 as [|a b rest1 rest2 Hab _ IH]; [done|].
  cbn. by rewrite (process_item_same _ _ Hab), IH.
Qed.

(** C10: two documents whose records agree position by position on
    everything but the presence or the value of [category] are processed to
    the same result: the same output document, or the same exception. *)
Theorem prior_category_ignored items1 items2 :
  Forall2 same_but_category items1 items2 →
  process_data (JArr items1) = process_data (JArr items2).
Proof. intros H. cbn. by rewrite (process_items_same _ _ H). Qed.

Lemma prior_category_ignored_witness :
  process_data (JArr [JObj boundary_record; JObj bare_record])
  = process_data (JArr [JObj boundary_record_fresh; JObj bare_record]).
Proof.
  apply prior_category_ignored.
  constructor; [|constructor; [by left|constructor]].
  right. exists boundary_record, boundary_record_fresh.
  split; [reflexivity|]. split; [reflexivity|]. vm_compute; reflexivity.
Defined.

(** ** The script *)

Section ScriptFacts.

Variable json_loads : string → option json.
Variable json_dumps : json → string.

Lemma add_category_field_success w text data data' :
  files w !! data_path = Some text →
  json_loads text = Some data →
  process_data data = Ok data' →
  add_category_field json_loads json_dumps w
  = (Ok (), World (<[data_path := json_dumps data']> (files w))
                  (stdout w ++ [success_message])).
Proof.
  intros Hfile Htext Hdata.
  unfold add_category_field, load_data, read_file. rewrite Hfile. cbn.
  by rewrite Htext, Hdata.
Qed.


(** A successful run, read back: this is where the output document goes. *)
Lemma add_category_field_Ok w w' :
  add_category_field json_loads json_dumps w = (Ok (), w') ↔
  ∃ text data data',
    files w !! data_path = Some text ∧ json_loads text = Some data ∧
    process_data data = Ok data' ∧
    w' = World (<[data_path := json_dumps data']> (files w))
               (stdout w ++ [success_message]).
Proof.
  split.
  - unfold add_category_field, load_data, read_file.
    destruct (files w !! data_path) as [text|] eqn:Hfile; cbn; [|done].
    destruct (json_loads text) as [data|] eqn:Htext; [|done].
    destruct (process_data data) as [data'|] eqn:Hdata; [|done].
    intros [= <-]. by exists text, data, data'.
  - intros (text & data & data' & Hfile & Htext & Hdata & ->).
    by apply add_category_field_success with text data.
Qed.

(** When the parser reads back what the serialiser writes, a second run
    after a successful one succeeds and writes the same text again. *)
Hypothesis json_loads_dumps : ∀ data, json_loads (json_dumps data) = Some data.

Lemma add_category_field_twice w w1 :
  add_category_field json_loads json_dumps w = (Ok (), w1) →
  add_category_field json_loads json_dumps w1
  = (Ok (), World (files w1) (stdout w1 ++ [success_message])).
Proof.
  intros (text & data & data' & _ & _ & Hdata & ->)%add_category_field_Ok.
  rewrite (add_category_field_success _ (json_dumps data') data' data').
  - cbn. by rewrite insert_insert_eq.
  - cbn. by rewrite lookup_insert_eq.
  - apply json_loads_dumps.
  - by eapply process_data_fixed.
Qed.

End ScriptFacts.

(** C8: when the file is missing the run ends with [FileNotFoundError], and
    when its text is not valid JSON the run ends with [JSONDecodeError]; in
    both cases the files and the standard output are left as they were. *)
Theorem load_failure_writes_nothing json_loads json_dumps w e :
  (files w !! data_path = None ∧ e = FileNotFoundError) ∨
  (∃ text, files w !! data_path = Some text ∧ json_loads text = None ∧
           e = JSONDecodeError) →
  add_category_field json_loads json_dumps w = (Raise e, w).
Proof.
  unfold add_category_field, load_data, read_file.
  intros [[Hfile ->]|(text & Hfile & Htext & ->)]; rewrite Hfile; cbn; [done|].
  by rewrite Htext.
Qed.

Lemma load_failure_writes_nothing_witness :
  add_category_field sample_loads sample_dumps world_without_file
  = (Raise FileNotFoundError, world_without_file) ∧
  add_category_field sample_loads sample_dumps world_with_malformed_file
  = (Raise JSONDecodeError, world_with_malformed_file).
Proof.
  split.
  - apply load_failure_writes_nothing. left. split; reflexivity.
  - apply load_failure_writes_nothing. right. exists "{oops".
    split; [vm_compute; reflexivity|]. split; reflexivity.
Defined.

(** * Further properties of the script *)

(** ** How the loop ends on an exception *)

Lemma process_items_app items1 items2 :
  process_items (items1 ++ items2)%list =
  out1 ← process_items items1;
  out2 ← process_items items2;
  mret (out1 ++ out2)%list.
Proof.
  induction items1 as [|item rest IH]; cbn.
  - by destruct (process_items items2).
  - destruct (process_item item) as [o|e]; cbn; [|done].
    rewrite IH. destruct (process_items rest) as [out1|e]; cbn; [|done].
    by destruct (process_items items2).
Qed.

Lemma process_items_succeed items :
  Forall succeeds items → ∃ out, process_items items = Ok out.
Proof.
  induction 1 as [|item rest [o Ho] _ [out Hout]]; [by exists []|].
  exists (o :: out). cbn. by rewrite Ho, Hout.
Qed.

Lemma process_items_first_failure pre bad post e :
  Forall succeeds pre → process_item bad = Raise e →
  process_items (pre ++ bad :: post)%list = Raise e.
Proof.
  intros [out Hout]%process_items_succeed Hbad.
  rewrite process_items_app, Hout. cbn. by rewrite Hbad.
Qed.

Lemma process_items_Raise items e :
  process_items items = Raise e →
  ∃ pre bad post, items = (pre ++ bad :: post)%list ∧ Forall succeeds pre ∧
                  process_item bad = Raise e.
Proof.
  induction items as [|item rest IH]; cbn; [done|].
  destruct (process_item item) as [o|e'] eqn:Hitem; cbn.
  - destruct (process_items rest) as [out|e'] eqn:Hrest; cbn; [done|].
    intros [= ->]. destruct (IH eq_refl) as (pre & bad & post & -> & Hpre & Hbad).
    exists (item :: pre), bad, post. split_and!; [done| |done].
    constructor; [by exists o | done].
  - intros [= ->]. exists [], item, rest. by split_and!.
Qed.

(** X1: the loop stops at the first item that raises: when the items before
    it are processed without an exception, the run of the loop ends with the
    exception of that item, whatever follows it. *)
Theorem first_failure_ends_loop pre bad post e :
  Forall succeeds pre → process_item bad = Raise e →
  process_data (JArr (pre ++ bad :: post)%list) = Raise e.
Proof.
  intros Hpre Hbad. cbn.
  by rewrite (process_items_first_failure _ _ _ _ Hpre Hbad).
Qed.

Lemma first_failure_ends_loop_witness :
  process_data (JArr ([JObj conflict_record; JObj bare_record]
                      ++ JObj dict_contexts_record
                      :: [JInt 3; JObj boundary_record])%list)
  = Raise KeyError.
Proof.
  apply first_failure_ends_loop.
  - repeat constructor; eexists; vm_compute; reflexivity.
  - vm_compute; reflexivity.
Defined.

(** X2: an element of the list that is not a dict ends the loop with
    [TypeError] as soon as it is reached. *)
Theorem non_dict_item_raises pre item post :
  (∀ m, item ≠ JObj m) → Forall succeeds pre →
  process_data (JArr (pre ++ item :: post)%list) = Raise TypeError.
Proof.
  intros Hitem Hpre. cbn.
  rewrite (process_items_first_failure pre item post TypeError); [done..|].
  by apply process_item_not_dict.
Qed.

Lemma non_dict_item_raises_witness :
  process_data (JArr ([JObj conflict_record]
                      ++ JArr [JStr "contexts"] :: [JObj bare_record])%list)
  = Raise TypeError.
Proof.
  apply non_dict_item_raises.
  - intros m. discriminate.
  - repeat constructor. eexists. vm_compute; reflexivity.
Defined.

(** X3: processing a list in two parts gives the same records as
    processing it whole: the loop produces an output for a concatenation
    exactly when it produces one for each part, and the output is the
    concatenation of the two. *)
Theorem process_data_app items1 items2 out :
  process_data (JArr (items1 ++ items2)%list) = Ok (JArr out) ↔
  ∃ out1 out2, out = (out1 ++ out2)%list ∧
               process_data (JArr items1) = Ok (JArr out1) ∧
               process_data (JArr items2) = Ok (JArr out2).
Proof.
  rewrite process_data_list. setoid_rewrite process_data_list.
  rewrite process_items_app. split.
  - intros (? & [= <-] & (out1 & H1 & (out2 & H2 & [= <-])%bind_Ok)%bind_Ok).
    exists out1, out2. split_and!; eauto.
  - intros (out1 & out2 & -> & (? & [= <-] & H1) & (? & [= <-] & H2)).
    exists (out1 ++ out2)%list. split; [done|]. by rewrite H1, H2.
Qed.

(** ** The exceptions of the loop *)

(** X4: what makes a record raise.  A dict raises exactly when its
    [contexts] is present and is [None], a boolean or a number
    ([TypeError], from [len]), or a dict that is not empty ([KeyError], from
    the index [0]), or a list whose first element is a list or a dict
    ([TypeError], from the lookup in the table). *)
Theorem record_failure_modes m e :
  process_item (JObj m) = Raise e ↔
  ∃ contexts, m !! "contexts" = Some contexts ∧
    ((scalar contexts ∧ e = TypeError) ∨
     (∃ d, contexts = JObj d ∧ d ≠ ∅ ∧ e = KeyError) ∨
     (∃ x l, contexts = JArr (x :: l) ∧ ¬ hashable x ∧ e = TypeError)).
Proof.
  rewrite process_item_dict. split.
  - destruct (m !! "contexts") as [v|]; [|done]. intros Hv. exists v.
    split; [done|].
    destruct v as [| | | |[|c s]|[|x l]|d]; cbn in Hv;
      try done; try (injection Hv as <-; left; by split).
    + destruct x; cbn in Hv; try done; injection Hv as <-;
        right; right; eexists _, _; split_and!; by auto.
    + destruct (size d) as [|n] eqn:Hd; cbn in Hv; [done|].
      injection Hv as <-. right; left. exists d. split_and!; [done| |done].
      intros ->. by rewrite map_size_empty in Hd.
  - intros (v & -> & [[Hv ->]|[(d & -> & Hd & ->)|(x & l & -> & Hx & ->)]]).
    + by destruct v.
    + cbn. destruct (size d) as [|n] eqn:Hsize; cbn; [|done].
      by apply map_size_empty_iff in Hsize.
    + destruct x; cbn in *; try done; by destruct Hx.
Qed.

Lemma process_item_Raise item e :
  process_item item = Raise e → e = TypeError ∨ e = KeyError.
Proof.
  destruct item as [| | | | | |m];
    try (rewrite process_item_not_dict by done; intros [= <-]; by left).
  rewrite process_item_dict.
  destruct (m !! "contexts") as [[| | | |[|c s]|[|x l]|d]|]; cbn;
    try done; try (intros [= <-]; by left).
  - destruct x; cbn; try done; intros [= <-]; by left.
  - destruct (size d); cbn; [done|]. intros [= <-]. by right.
Qed.

Lemma process_data_Raise data e :
  process_data data = Raise e → e = TypeError ∨ e = KeyError.
Proof.
  assert (∀ items, process_items items = Raise e →
                   e = TypeError ∨ e = KeyError) as Hitems.
  { intros items (pre & bad & post & _ & _ & Hbad)%process_items_Raise.
    by eapply process_item_Raise. }
  destruct data as [| | | | s|items|m]; cbn;
    try (intros [= <-]; by left).
  - destruct (process_items _) as [?|e'] eqn:H; cbn; [done|].
    intros [= ->]. by eapply Hitems.
  - destruct (process_items items) as [?|e'] eqn:H; cbn; [done|].
    intros [= ->]. by eapply Hitems.
  - destruct (process_items _) as [?|e'] eqn:H; cbn; [done|].
    intros [= ->]. by eapply Hitems.
Qed.

(** X5: whatever value was loaded, the loop raises [TypeError] or
    [KeyError] only; the index [0] is taken after [len] was found positive,
    so [IndexError] is never raised. *)
Theorem loop_exceptions data e :
  process_data data = Raise e → e = TypeError ∨ e = KeyError.
Proof. apply process_data_Raise. Qed.

Lemma loop_exceptions_witness :
  KeyError = TypeError ∨ KeyError = KeyError.
Proof.
  apply (loop_exceptions (JArr [JObj bare_record; JObj dict_contexts_record])).
  vm_compute; reflexivity.
Defined.

(** ** A [contexts] that is a [str] *)

Lemma context_mapping_one_char c : context_mapping !! String c "" = None.
Proof.
  destruct (context_mapping !! String c "") as [v|] eqn:Hv; [|done].
  apply (elem_of_list_to_map_2 (M := gmap string)) in Hv.
  repeat (apply elem_of_cons in Hv as [[=]|Hv]).
  by apply elem_of_nil in Hv.
Qed.

(** X6: when [contexts] is a [str] that is not empty (and not a list of
    [str]), the first context is its first character; no key of the table is
    one character long, so the record gets ["emotional"], also when the
    whole [str] is a key of the table. *)
Theorem str_contexts_category m s :
  m !! "contexts" = Some (JStr s) → s ≠ "" →
  process_item (JObj m) = Ok (JObj (<["category" := JStr "emotional"]> m)).
Proof.
  intros Hm Hs. rewrite process_item_dict, Hm.
  destruct s as [|c s]; [done|]. cbn.
  by rewrite context_mapping_one_char.
Qed.

Lemma str_contexts_category_witness :
  context_mapping !! "conflict" = Some "conflict_resolution" ∧
  process_item (JObj str_contexts_record)
  = Ok (JObj (<["category" := JStr "emotional"]> str_contexts_record)).
Proof.
  split; [vm_compute; reflexivity|].
  apply (str_contexts_category str_contexts_record "conflict").
  - vm_compute; reflexivity.
  - discriminate.
Defined.

(** ** What the category depends on *)

(** X7: only the first context counts.  Two records whose [contexts] are
    lists with the same first element are given the same category, or raise
    the same exception, whatever the other contexts and the other fields
    are. *)
Theorem only_first_context_counts m1 m2 x l1 l2 :
  m1 !! "contexts" = Some (JArr (x :: l1)) →
  m2 !! "contexts" = Some (JArr (x :: l2)) →
  (∃ c, process_item (JObj m1) = Ok (JObj (<["category" := JStr c]> m1)) ∧
        process_item (JObj m2) = Ok (JObj (<["category" := JStr c]> m2))) ∨
  (∃ e, process_item (JObj m1) = Raise e ∧ process_item (JObj m2) = Raise e).
Proof.
  intros H1 H2. rewrite !process_item_dict, H1, H2. cbn.
  destruct (mapping_get x "emotional") as [c|e]; cbn; eauto.
Qed.

Lemma only_first_context_counts_witness :
  (∃ c, process_item (JObj unknown_record)
        = Ok (JObj (<["category" := JStr c]> unknown_record)) ∧
        process_item
          (JObj {[ "contexts" := JArr [JStr "unknown_label"; JStr "safety"];
                   "category" := JStr "repair" ]})
        = Ok (JObj (<["category" := JStr c]>
                      {[ "contexts" := JArr [JStr "unknown_label";
                                             JStr "safety"];
                         "category" := JStr "repair" ]}))) ∨
  (∃ e, process_item (JObj unknown_record) = Raise e ∧
        process_item
          (JObj {[ "contexts" := JArr [JStr "unknown_label"; JStr "safety"];
                   "category" := JStr "repair" ]}) = Raise e).
Proof.
  apply (only_first_context_counts _ _ (JStr "unknown_label")
           [JStr "repair"] [JStr "safety"]); vm_compute; reflexivity.
Defined.

(** X8: every category other than ["emotional"] is accounted for by the
    source: it is ["general"] on a record without [contexts] or with an empty
    one, or it is what the table gives for the first context, a [str]. *)
Theorem category_justified m o c :
  process_item (JObj m) = Ok o → has_category o c → c ≠ "emotional" →
  (c = "general" ∧
   (m !! "contexts" = None ∨
    ∃ contexts, m !! "contexts" = Some contexts ∧ py_len contexts = Ok 0%nat)) ∨
  (∃ contexts k, m !! "contexts" = Some contexts ∧
                 py_getitem0 contexts = Ok (JStr k) ∧
                 context_mapping !! k = Some c).
Proof.
  rewrite process_item_dict.
  intros (c' & Hc' & [= <-])%bind_Ok (? & [= <-] & Hc) Hne.
  rewrite lookup_insert_eq in Hc. injection Hc as ->.
  destruct (m !! "contexts") as [v|]; cbn in Hc'.
  - apply bind_Ok in Hc' as ([|n] & Hlen & Hc').
    + injection Hc' as <-. left. split; [done|]. right. by exists v.
    + apply bind_Ok in Hc' as (pc & Hpc & Hc'). right.
      destruct pc as [| | | | k| |]; cbn in Hc'; try congruence.
      destruct (context_mapping !! k) as [c'|] eqn:Hk; cbn in Hc';
        [|congruence].
      injection Hc' as ->. by exists v, k.
  - injection Hc' as <-. left. split; [done|]. by left.
Qed.

Lemma category_justified_witness :
  ("boundary" = "general" ∧
   (boundary_record !! "contexts" = None ∨
    ∃ contexts, boundary_record !! "contexts" = Some contexts ∧
                py_len contexts = Ok 0%nat)) ∨
  (∃ contexts k, boundary_record !! "contexts" = Some contexts ∧
                 py_getitem0 contexts = Ok (JStr k) ∧
                 context_mapping !! k = Some "boundary").
Proof.
  apply (category_justified boundary_record
           (JObj (<["category" := JStr "boundary"]> boundary_record))).
  - vm_compute; reflexivity.
  - eexists. split; [reflexivity|]. vm_compute; reflexivity.
  - discriminate.
Defined.

(** ** A loaded value that is not a list *)

Lemma process_items_cons_Raise item rest e :
  process_item item = Raise e → process_items (item :: rest) = Raise e.
Proof. intros H. cbn. by rewrite H. Qed.

(** X9: the script does not check that the document is a list.  An empty
    dict and an empty [str] pass through the loop unchanged; every other
    value that is not a list ends the loop with [TypeError]. *)
Theorem non_list_document data :
  (∀ items, data ≠ JArr items) →
  (process_data data = Ok data ∧ (data = JObj ∅ ∨ data = JStr "")) ∨
  (process_data data = Raise TypeError ∧ data ≠ JObj ∅ ∧ data ≠ JStr "").
Proof.
  intros Hdata. destruct data as [| | | | s|items|m]; try (by right).
  - destruct s as [|c s]; [left; by auto|]. right. split_and!; [|done..].
    unfold process_data. simpl String.list_ascii_of_string.
    rewrite fmap_cons, (process_items_cons_Raise _ _ TypeError); [done|].
    by apply process_item_not_dict.
  - by destruct (Hdata items).
  - destruct (map_to_list m) as [|[k v] kvs] eqn:Hm.
    + apply map_to_list_empty_iff in Hm as ->. left. split; [|by left].
      cbn. by rewrite map_to_list_empty.
    + right. split_and!; [|intros [= ->]; by rewrite map_to_list_empty in Hm
                          |done].
      unfold process_data. rewrite Hm, !fmap_cons.
      rewrite (process_items_cons_Raise _ _ TypeError); [done|].
      by apply process_item_not_dict.
Qed.

Lemma non_list_document_witness :
  (process_data (JObj bare_record) = Ok (JObj bare_record) ∧
   (JObj bare_record = JObj ∅ ∨ JObj bare_record = JStr "")) ∨
  (process_data (JObj bare_record) = Raise TypeError ∧
   JObj bare_record ≠ JObj ∅ ∧ JObj bare_record ≠ JStr "").
Proof. apply non_list_document. intros items. discriminate. Defined.

(** ** Runs of the script *)

(** X10: a run that ends without an exception has printed the success line
    once, after what was on the standard output, has left every file other
    than the data file as it was, and has replaced the text of the data file
    by the serialisation of the processed document. *)
Theorem successful_run_effect json_loads json_dumps w w' :
  add_category_field json_loads json_dumps w = (Ok (), w') →
  stdout w' = (stdout w ++ [success_message])%list ∧
  (∀ path, path ≠ data_path → files w' !! path = files w !! path) ∧
  ∃ text data data',
    files w !! data_path = Some text ∧ json_loads text = Some data ∧
    process_data data = Ok data' ∧
    files w' !! data_path = Some (json_dumps data').
Proof.
  intros (text & data & data' & Hfile & Htext & Hdata & ->)
    %add_category_field_Ok.
  cbn. split_and!; [done| |].
  - intros path Hpath. by rewrite lookup_insert_ne.
  - exists text, data, data'. by rewrite lookup_insert_eq.
Qed.

Lemma successful_run_effect_witness :
  stdout world_after_run
  = (stdout world_with_empty_list ++ [success_message])%list ∧
  (∀ path, path ≠ data_path →
           files world_after_run !! path
           = files world_with_empty_list !! path) ∧
  ∃ text data data',
    files world_with_empty_list !! data_path = Some text ∧
    sample_loads text = Some data ∧
    process_data data = Ok data' ∧
    files world_after_run !! data_path = Some (sample_dumps data').
Proof.
  apply (successful_run_effect sample_loads sample_dumps).
  vm_compute; reflexivity.
Defined.






